(** * Verification of the lab 3 expression tree and the lab 5 interpreter
    of the rust_labs repository.

    Lab 5 ([src/rust_lab_5/src/main.rs]) is a family of generic structs
    implementing the traits [Expr] and [Stmt]; every composed program is a
    tree of such structs, embedded here as the inductive types [Expr] and
    [Stmt].  The references [&'a mut u64] / [&'a u64] held by [SaveIn],
    [Volatile] and [ReadFrom] point into the caller's memory; they are
    modelled as addresses into an explicit store.  The test doubles
    [Recorder] and [CounterExpr] of the test module are included, since the
    properties about side effects are phrased through them. *)

From Stdlib Require Import ZArith String Ascii List Lia.
From stdpp Require Import base gmap strings list pretty.
Import ListNotations.
Open Scope Z_scope.

(* ===================================================================== *)
(** ** Lab 5: the mini interpreter *)

Module Lab5.

(** [type Context = HashMap<&'static str, u64>;] *)
Abbreviation Context := (gmap string Z).

(** A reference [&'a mut u64] / [&'a u64] to a caller's variable, and the
    [Rc<RefCell<u32>>] counter of [CounterExpr], are addresses. *)
Abbreviation cell := nat.

(** The machine state visible to a program: the caller's memory cells,
    the shared log of the [Recorder] test statements, and the lines
    written to standard output by [println!]. *)
Record State := mkState {
  mem : gmap cell Z;
  log : list string;
  out : list Z;
}.

(** A Rust reference always points to an initialised variable; the
    programs below only read cells they have been given, so the [None]
    case is never reached by them. *)
Definition read_cell (st : State) (c : cell) : Z :=
  match mem st !! c with
  | Some v => v
  | None => 0
  end.

Definition write_cell (st : State) (c : cell) (v : Z) : State :=
  mkState (<[c := v]> (mem st)) (log st) (out st).

Definition push_log (st : State) (l : string) : State :=
  mkState (mem st) (log st ++ [l]) (out st).

Definition push_out (st : State) (v : Z) : State :=
  mkState (mem st) (log st) (out st ++ [v]).

(** A Rust evaluation either returns or panics (with the panic message). *)
Inductive outcome (A : Type) : Type :=
| Done (a : A)
| Panic (msg : string).
Arguments Done {A} a.
Arguments Panic {A} msg.

Definition bind {A B} (m : outcome A) (k : A -> outcome B) : outcome B :=
  match m with
  | Done a => k a
  | Panic msg => Panic msg
  end.

Notation "'let*' ( x , y ) := m 'in' k" :=
  (bind m (fun p => let (x, y) := p in k))
  (at level 200, x name, y name, m at level 100, k at level 200).

(** Expression nodes: every struct implementing [Expr]. *)
Inductive Expr : Type :=
| Lit (v : Z)                              (* impl Expr for u64 *)
| When (condition true_val false_val : Expr)
| Constant (name : string)
| ReadFrom (name : cell)
| SaveIn (destination : cell) (inner : Expr)
| Volatile (destination : cell) (name : string) (inner : Expr)
| CounterExpr (calls : cell) (value : Z).  (* test double *)

(** Statement nodes: every struct implementing [Stmt]. *)
Inductive Stmt : Type :=
| Print (inner : Expr)
| Nothing
| Seq (first second : Stmt)
| Repeat (N : nat) (inner : Stmt)          (* Repeat<const N: u32, T> *)
| Recorder (label : string).               (* test double *)

(** [Expr::exec_expr] of every implementation. *)
Fixpoint exec_expr (e : Expr) (context : Context) (st : State)
    : outcome (Z * State) :=
  match e with
  | Lit v => Done (v, st)
  | When condition true_val false_val =>
      let* (cond, st1) := exec_expr condition context st in
      if Z.eqb cond 0 then exec_expr false_val context st1
      else exec_expr true_val context st1
  | Constant name =>
      match context !! name with
      | Some v => Done (v, st)
      | None => Panic (name ++ " not found")
      end
  | ReadFrom name => Done (read_cell st name, st)
  | SaveIn destination inner =>
      let* (value, st1) := exec_expr inner context st in
      Done (value, write_cell st1 destination value)
  | Volatile destination name inner =>
      let new_context := <[name := read_cell st destination]> context in
      let* (value, st1) := exec_expr inner new_context st in
      Done (value, write_cell st1 destination value)
  | CounterExpr calls value =>
      Done (value, write_cell st calls (read_cell st calls + 1))
  end.

(** [for _ in 0..N { self.inner.exec_stmt(context); }] *)
Fixpoint repeat_loop (N : nat) (body : State -> outcome State) (st : State)
    : outcome State :=
  match N with
  | O => Done st
  | S n => bind (body st) (repeat_loop n body)
  end.

(** [Stmt::exec_stmt] of every implementation. *)
Fixpoint exec_stmt (s : Stmt) (context : Context) (st : State)
    : outcome State :=
  match s with
  | Print inner =>
      let* (v, st1) := exec_expr inner context st in Done (push_out st1 v)
  | Nothing => Done st
  | Seq first second =>
      bind (exec_stmt first context st) (exec_stmt second context)
  | Repeat N inner => repeat_loop N (exec_stmt inner context) st
  | Recorder label => Done (push_log st label)
  end.

Definition empty_state : State := mkState ∅ [] [].

End Lab5.

(* ===================================================================== *)
(** ** Lab 3: symbolic expressions ([src/rust_lab_3/src/main.rs]) *)

(** [enum Var { X, Y, Z }], kept in its own name space so that its [Z]
    does not hide the type of integers. *)
Module Var.
Inductive Var : Type := X | Y | Z.

Definition eqb (a b : Var) : bool :=
  match a, b with
  | X, X | Y, Y | Z, Z => true
  | _, _ => false
  end.

(** [impl fmt::Display for Var] *)
Definition to_string (v : Var) : string :=
  match v with
  | X => "X"
  | Y => "Y"
  | Z => "Z"
  end.
End Var.

Module Lab3.

(** [enum Const { Numeric(i64), Named(String) }] *)
Inductive Const : Type :=
| Numeric (n : Z)
| Named (n : string).

(** [enum E] *)
Inductive E : Type :=
| Add (e1 e2 : E)
| Neg (e : E)
| Mul (e1 e2 : E)
| Inv (e : E)
| Const_ (c : Const)          (* E::Const *)
| Func (name : string) (arg : E)
| Var (v : Var.Var).

(** [E::diff] *)
Fixpoint diff (self : E) (by_ : Var.Var) : E :=
  match self with
  | Add e1 e2 => Add (diff e1 by_) (diff e2 by_)
  | Neg e => Neg (diff e by_)
  | Mul e1 e2 =>
      let f := e1 in
      let g := e2 in
      let f_prime := diff e1 by_ in
      let g_prime := diff e2 by_ in
      Add (Mul f_prime g) (Mul f g_prime)
  | Inv e =>
      let f := e in
      let f_prime := diff e by_ in
      let f_squared := Mul f f in
      Mul (Neg (Inv f_squared)) f_prime
  | Const_ _ => Const_ (Numeric 0)
  | Var v => if Var.eqb v by_ then Const_ (Numeric 1) else Const_ (Numeric 0)
  | Func name arg =>
      let f_diff := Func (name ++ "_" ++ Var.to_string by_) arg in
      let arg_diff := diff arg by_ in
      Mul f_diff arg_diff
  end.

(** Number of nodes; bounds the iterations of the simplification loops. *)
Fixpoint size (e : E) : nat :=
  match e with
  | Add e1 e2 | Mul e1 e2 => S (size e1 + size e2)
  | Neg e | Inv e | Func _ e => S (size e)
  | Const_ _ | Var _ => 1
  end.

(** [E::unpack_inv_inv] *)
Definition unpack_inv_inv (self : E) : option E :=
  match self with
  | Inv (Inv in2) => Some in2
  | _ => None
  end.

(** [E::unpack_neg_neg] *)
Definition unpack_neg_neg (self : E) : option E :=
  match self with
  | Neg (Neg res) => Some res
  | _ => None
  end.

(** [while let Some(next) = self.clone().unpack(){ self = next; } self].
    Each iteration strictly shrinks the tree, so [size self] iterations
    always suffice ([unneg_done] and [uninv_done] below). *)
Fixpoint unpack_loop (unpack : E -> option E) (fuel : nat) (self : E) : E :=
  match fuel with
  | O => self
  | S fuel' =>
      match unpack self with
      | Some next => unpack_loop unpack fuel' next
      | None => self
      end
  end.

(** [E::uninv] *)
Definition uninv (self : E) : E := unpack_loop unpack_inv_inv (size self) self.

(** [E::unneg] *)
Definition unneg (self : E) : E := unpack_loop unpack_neg_neg (size self) self.

(** [E::substitute] *)
Fixpoint substitute (self : E) (name : string) (value : E) : E :=
  match self with
  | Add e1 e2 => Add (substitute e1 name value) (substitute e2 name value)
  | Neg e => Neg (substitute e name value)
  | Mul e1 e2 => Mul (substitute e1 name value) (substitute e2 name value)
  | Inv e => Inv (substitute e name value)
  | Var v => Var v
  | Func n arg => Func n (substitute arg name value)
  | Const_ (Named n) => if String.eqb n name then value else Const_ (Named n)
  | Const_ c => Const_ c
  end.

(** [impl fmt::Display for Const]: an [i64] is written in decimal. *)
Definition const_to_string (c : Const) : string :=
  match c with
  | Numeric n => pretty n
  | Named n => n
  end.

(** [impl fmt::Display for E] *)
Fixpoint render (self : E) : string :=
  match self with
  | Add e1 e2 => "(" ++ render e1 ++ " + " ++ render e2 ++ ")"
  | Neg e => "-(" ++ render e ++ ")"
  | Mul e1 e2 => "(" ++ render e1 ++ " * " ++ render e2 ++ ")"
  | Inv e => "1/(" ++ render e ++ ")"
  | Const_ c => const_to_string c
  | Var v => Var.to_string v
  | Func name arg => name ++ "(" ++ render arg ++ ")"
  end.

(** Whether the tree has a named-constant leaf called [name]. *)
Fixpoint has_named (name : string) (self : E) : bool :=
  match self with
  | Add e1 e2 | Mul e1 e2 => has_named name e1 || has_named name e2
  | Neg e | Inv e | Func _ e => has_named name e
  | Const_ (Named n) => String.eqb n name
  | Const_ (Numeric _) | Var _ => false
  end.

(** [n] layers of a unary wrapper around [e]. *)
Fixpoint wrap (w : E -> E) (n : nat) (e : E) : E :=
  match n with
  | O => e
  | S n' => w (wrap w n' e)
  end.

(** Number of layers of the wrapper [Neg] (resp. [Inv]) at the root. *)
Fixpoint root_negs (e : E) : nat :=
  match e with Neg e' => S (root_negs e') | _ => O end.
Fixpoint root_invs (e : E) : nat :=
  match e with Inv e' => S (root_invs e') | _ => O end.

End Lab3.

(* ===================================================================== *)
(** ** Properties of the lab 5 interpreter *)

Module Lab5Facts.
Import Lab5.

(** [N] copies of a statement in sequence: [seq(s, seq(s, ... nothing()))]. *)
Fixpoint seq_n (N : nat) (s : Stmt) : Stmt :=
  match N with
  | O => Nothing
  | S n => Seq s (seq_n n s)
  end.

(** The environment of the caller of [main] in [src/rust_lab_5]:
    [HashMap::from([("x", 0), ("y", 10)])]. *)
Definition main_context : Context := list_to_map [("x", 0); ("y", 10)].

(** The caller's variable [let mut a: u64 = 0;] at address 0. *)
Definition cells0 : State := write_cell empty_state 0 0.

Lemma bind_ext {A B} (m : outcome A) (k1 k2 : A -> outcome B) :
  (forall a, k1 a = k2 a) -> bind m k1 = bind m k2.
Proof. intros Hk. destruct m as [a|msg]; simpl; [apply Hk | reflexivity]. Qed.

Lemma repeat_loop_seq_n (N : nat) (s : Stmt) (context : Context) (st : State) :
  repeat_loop N (exec_stmt s context) st = exec_stmt (seq_n N s) context st.
Proof.
  revert st. induction N as [|n IH]; intros st; simpl; [reflexivity|].
  apply bind_ext. exact IH.
Qed.

Lemma repeat_loop_recorder (N : nat) (label : string) (st : State) :
  repeat_loop N (fun st0 => Done (push_log st0 label)) st =
  Done (mkState (mem st) (log st ++ repeat label N) (out st)).
Proof.
  revert st. induction N as [|n IH]; intros [m l o]; simpl.
  - rewrite app_nil_r. reflexivity.
  - unfold push_log at 1. simpl. rewrite IH. simpl.
    rewrite <- app_assoc. reflexivity.
Qed.

(** C1: [Volatile(c, k, E)] evaluates [E] against a copy of the environment
    in which [k] is bound to the current value of the cell [c], and writes
    the result into [c]; so [c] holds the returned value afterwards.  The
    caller's environment is untouched: a lookup of [k] that the caller
    evaluates next, with the same environment, sees the caller's binding of
    [k] (or panics if the caller has none), not the override. *)
Theorem volatile_shadows_and_updates (E : Expr) (ctx : Context) (c : cell)
    (k : string) (st : State) :
  exec_expr (Volatile c k E) ctx st =
    bind (exec_expr E (<[k := read_cell st c]> ctx) st)
         (fun p => Done (fst p, write_cell (snd p) c (fst p)))
  /\ (forall v st', exec_expr (Volatile c k E) ctx st = Done (v, st') ->
        read_cell st' c = v)
  /\ (forall v st', exec_expr (Volatile c k E) ctx st = Done (v, st') ->
        exec_stmt (Seq (Print (Volatile c k E)) (Print (Constant k))) ctx st =
        match ctx !! k with
        | Some v0 => Done (push_out (push_out st' v) v0)
        | None => Panic (k ++ " not found")
        end).
Proof.
  split; [|split].
  - simpl. apply bind_ext. intros [v st1]. reflexivity.
  - simpl. intros v st'.
    destruct (exec_expr E _ st) as [[v1 st1]|msg]; simpl; [|discriminate].
    intros H. inversion H; subst. unfold read_cell, write_cell; simpl.
    rewrite lookup_insert_eq. reflexivity.
  - intros v st' H. simpl. simpl in H. rewrite H. simpl.
    destruct (ctx !! k); reflexivity.
Qed.

Lemma volatile_shadows_and_updates_witness :
  exec_expr (Volatile 0 "y" (When (Constant "y") (Lit 7) (Lit 8))) main_context
    cells0 = Done (8, write_cell cells0 0 8)
  /\ exec_stmt (Seq (Print (Volatile 0 "y" (When (Constant "y") (Lit 7) (Lit 8))))
                    (Print (Constant "y"))) main_context cells0 =
     Done (push_out (push_out (write_cell cells0 0 8) 8) 10).
Proof.
  assert (H : exec_expr (Volatile 0 "y" (When (Constant "y") (Lit 7) (Lit 8)))
                main_context cells0 = Done (8, write_cell cells0 0 8))
    by reflexivity.
  split; [exact H|].
  destruct (volatile_shadows_and_updates (When (Constant "y") (Lit 7) (Lit 8))
              main_context 0 "y" cells0) as [_ [_ H3]].
  rewrite (H3 8 (write_cell cells0 0 8) H). reflexivity.
Defined.

(** C2: [When(cond, t, f)] with a condition evaluating to [0] returns the
    value of [f], evaluated in the state left by the condition, and does
    not depend on [t] at all (so none of [t]'s effects on memory cells or
    counters happen); with a nonzero condition it returns the value of [t]
    and does not depend on [f]. *)
Theorem when_evaluates_only_taken_branch (cond t f : Expr) (ctx : Context)
    (st : State) :
  (forall st1, exec_expr cond ctx st = Done (0, st1) ->
     exec_expr (When cond t f) ctx st = exec_expr f ctx st1
     /\ forall t', exec_expr (When cond t' f) ctx st =
                   exec_expr (When cond t f) ctx st)
  /\ (forall c st1, c <> 0 -> exec_expr cond ctx st = Done (c, st1) ->
     exec_expr (When cond t f) ctx st = exec_expr t ctx st1
     /\ forall f', exec_expr (When cond t f') ctx st =
                   exec_expr (When cond t f) ctx st).
Proof.
  split.
  - intros st1 H. simpl. rewrite H. simpl. split; reflexivity.
  - intros c st1 Hc H. simpl. rewrite H. simpl.
    rewrite (proj2 (Z.eqb_neq c 0) Hc). split; reflexivity.
Qed.

Lemma when_evaluates_only_taken_branch_witness :
  exec_expr (When (Lit 0) (CounterExpr 1 7) (Lit 8)) ∅ cells0 = Done (8, cells0)
  /\ exec_expr (When (Lit 1) (Lit 7) (CounterExpr 1 8)) ∅ cells0 = Done (7, cells0).
Proof.
  destruct (when_evaluates_only_taken_branch (Lit 0) (CounterExpr 1 7) (Lit 8)
              ∅ cells0) as [H0 _].
  destruct (when_evaluates_only_taken_branch (Lit 1) (Lit 7) (CounterExpr 1 8)
              ∅ cells0) as [_ H1].
  split.
  - rewrite (proj1 (H0 cells0 eq_refl)). reflexivity.
  - rewrite (proj1 (H1 1 cells0 ltac:(lia) eq_refl)). reflexivity.
Defined.

(** C4: [Constant(name)] panics with ["<name> not found"] when the
    environment has no entry [name], and so does any statement printing
    it: no value is produced and no error value is returned; when the entry
    is present it returns the bound value, leaving the state untouched. *)
Theorem constant_lookup_or_panic (name : string) (ctx : Context) (st : State) :
  (ctx !! name = None ->
     exec_expr (Constant name) ctx st = Panic (name ++ " not found")
     /\ exec_stmt (Print (Constant name)) ctx st = Panic (name ++ " not found"))
  /\ (forall v, ctx !! name = Some v ->
     exec_expr (Constant name) ctx st = Done (v, st)).
Proof.
  split.
  - intros H. simpl. rewrite H. split; reflexivity.
  - intros v H. simpl. rewrite H. reflexivity.
Qed.

Lemma constant_lookup_or_panic_witness :
  exec_expr (Constant "z") main_context cells0 = Panic "z not found"
  /\ exec_expr (Constant "y") main_context cells0 = Done (10, cells0).
Proof.
  destruct (constant_lookup_or_panic "z" main_context cells0) as [Hn _].
  destruct (constant_lookup_or_panic "y" main_context cells0) as [_ Hs].
  split.
  - exact (proj1 (Hn eq_refl)).
  - exact (Hs 10 eq_refl).
Defined.

(** C5: [Repeat<N>(s)] behaves as [N] copies of [s] run one after the other
    against the same environment; run on a [Recorder], it appends its label
    to the log exactly [N] times and changes nothing else (for every [N],
    in particular [0], [1] and [3]). *)
Theorem repeat_runs_n_times (N : nat) (s : Stmt) (ctx : Context) (st : State) :
  exec_stmt (Repeat N s) ctx st = exec_stmt (seq_n N s) ctx st
  /\ forall label,
     exec_stmt (Repeat N (Recorder label)) ctx st =
     Done (mkState (mem st) (log st ++ repeat label N) (out st)).
Proof.
  split.
  - simpl. apply repeat_loop_seq_n.
  - intros label. simpl. apply repeat_loop_recorder.
Qed.

(** C9: with the environment [{x: 0, y: 10}] of [main],
    [when(constant("y"), 1, 2)] evaluates to [1] and
    [when(constant("x"), 1, 2)] evaluates to [2]. *)
Theorem main_when_results (st : State) :
  exec_expr (When (Constant "y") (Lit 1) (Lit 2)) main_context st = Done (1, st)
  /\ exec_expr (When (Constant "x") (Lit 1) (Lit 2)) main_context st = Done (2, st).
Proof. split; reflexivity. Qed.

(** C10: when [k] is absent from the environment, [Volatile(c, k, E)] still
    binds [k] to the value of [c] for [E]: a lookup of [k] inside succeeds
    with that value instead of panicking; the caller's environment still
    lacks [k], so a lookup of [k] evaluated by the caller next panics. *)
Theorem volatile_inserts_absent_key (ctx : Context) (c : cell) (k : string)
    (E : Expr) (st : State) :
  ctx !! k = None ->
  exec_expr (Volatile c k E) ctx st =
    bind (exec_expr E (<[k := read_cell st c]> ctx) st)
         (fun p => Done (fst p, write_cell (snd p) c (fst p)))
  /\ exec_expr (Constant k) (<[k := read_cell st c]> ctx) st =
     Done (read_cell st c, st)
  /\ exec_expr (Volatile c k (Constant k)) ctx st =
     Done (read_cell st c, write_cell st c (read_cell st c))
  /\ exec_stmt (Seq (Print (Volatile c k (Constant k))) (Print (Constant k)))
       ctx st = Panic (k ++ " not found").
Proof.
  intros Hk. split; [|split; [|split]].
  - simpl. apply bind_ext. intros [v st1]. reflexivity.
  - simpl. rewrite lookup_insert_eq. reflexivity.
  - simpl. rewrite lookup_insert_eq. reflexivity.
  - simpl. rewrite lookup_insert_eq. simpl. rewrite Hk. reflexivity.
Qed.

Lemma volatile_inserts_absent_key_witness :
  exec_stmt (Seq (Print (Volatile 0 "k" (Constant "k"))) (Print (Constant "k")))
    main_context cells0 = Panic "k not found".
Proof.
  exact (proj2 (proj2 (proj2
    (volatile_inserts_absent_key main_context 0 "k" (Lit 0) cells0 eq_refl)))).
Defined.

End Lab5Facts.

(* ===================================================================== *)
(** ** Properties of the lab 3 expression tree *)

Module Lab3Facts.
Import Lab3.
Local Open Scope nat_scope.

Lemma size_pos (e : E) : 1 <= size e.
Proof. destruct e; simpl; lia. Qed.

(** The two simplification loops share one shape: a unary wrapper [w], the
    function [unpack] removing two layers of it, and the count [root] of
    layers of [w] at the root. *)
Section Unwrap.
Variable w : E -> E.
Variable unpack : E -> option E.
Variable root : E -> nat.
Hypothesis unpack_pair : forall x, unpack (w (w x)) = Some x.
Hypothesis unpack_none0 : forall x, root x = 0 -> unpack x = None.
Hypothesis unpack_none1 : forall x, root x = 0 -> unpack (w x) = None.
Hypothesis unpack_size : forall x y, unpack x = Some y -> size y < size x.
Hypothesis size_w : forall x, size (w x) = S (size x).

Lemma size_wrap (n : nat) (e : E) : size (wrap w n e) = n + size e.
Proof. induction n as [|n IH]; simpl; [reflexivity | rewrite size_w; lia]. Qed.

Lemma wrap_wrap (n m : nat) (e : E) : wrap w n (wrap w m e) = wrap w (n + m) e.
Proof. induction n as [|n IH]; simpl; [reflexivity | rewrite IH; reflexivity]. Qed.

(** Removing pairs: [m] pairs and a rest [r < 2] leave [r] layers. *)
Lemma unpack_loop_wrap (m fuel r : nat) (e : E) :
  r < 2 -> root e = 0 -> m <= fuel ->
  unpack_loop unpack fuel (wrap w (2 * m + r) e) = wrap w r e.
Proof.
  intros Hr He. revert fuel.
  induction m as [|m IH]; intros fuel Hf.
  - destruct fuel as [|fuel]; simpl; [reflexivity|].
    destruct r as [|[|r]]; simpl; [rewrite unpack_none0 | rewrite unpack_none1 | lia];
      auto.
  - replace (2 * S m + r) with (S (S (2 * m + r))) by lia.
    destruct fuel as [|fuel]; [lia|]. simpl.
    rewrite unpack_pair. apply IH. lia.
Qed.

(** [n] layers around a tree without the wrapper leave [n mod 2] layers. *)
Lemma unpack_loop_size_wrap (n : nat) (e : E) :
  root e = 0 ->
  unpack_loop unpack (size (wrap w n e)) (wrap w n e) = wrap w (n mod 2) e.
Proof.
  intros He.
  pose proof (Nat.div_mod_eq n 2) as Hn.
  pose proof (Nat.mod_upper_bound n 2 ltac:(lia)) as Hm.
  remember (size (wrap w n e)) as fuel eqn:Hfuel.
  assert (Hq : n / 2 <= fuel).
  { rewrite Hfuel, size_wrap. pose proof (size_pos e). lia. }
  rewrite <- (unpack_loop_wrap (n / 2) fuel (n mod 2) e Hm He Hq).
  rewrite <- Hn. reflexivity.
Qed.

(** The fuel [size self] is never exhausted: the loop stops because no
    pair is left. *)
Lemma unpack_loop_done (fuel : nat) (e : E) :
  size e <= fuel -> unpack (unpack_loop unpack fuel e) = None.
Proof.
  revert e. induction fuel as [|fuel IH]; intros e Hf.
  - pose proof (size_pos e). lia.
  - simpl. destruct (unpack e) as [next|] eqn:Hu; [|exact Hu].
    apply IH. apply unpack_size in Hu. lia.
Qed.

End Unwrap.

Lemma neg_unpack_none0 (x : E) : root_negs x = 0 -> unpack_neg_neg x = None.
Proof. destruct x; simpl; try discriminate; reflexivity. Qed.
Lemma neg_unpack_none1 (x : E) : root_negs x = 0 -> unpack_neg_neg (Neg x) = None.
Proof. destruct x; simpl; try discriminate; reflexivity. Qed.
Lemma neg_unpack_size (x y : E) : unpack_neg_neg x = Some y -> size y < size x.
Proof.
  destruct x as [| x | | | | |]; simpl; try discriminate.
  destruct x; simpl; try discriminate. intros H; inversion H; subst; lia.
Qed.
Lemma inv_unpack_none0 (x : E) : root_invs x = 0 -> unpack_inv_inv x = None.
Proof. destruct x; simpl; try discriminate; reflexivity. Qed.
Lemma inv_unpack_none1 (x : E) : root_invs x = 0 -> unpack_inv_inv (Inv x) = None.
Proof. destruct x; simpl; try discriminate; reflexivity. Qed.
Lemma inv_unpack_size (x y : E) : unpack_inv_inv x = Some y -> size y < size x.
Proof.
  destruct x as [| | | x | | |]; simpl; try discriminate.
  destruct x; simpl; try discriminate. intros H; inversion H; subst; lia.
Qed.

(** Instances of the shared loop facts for [unneg] and [uninv]. *)
Lemma unneg_wrap (n : nat) (e : E) :
  root_negs e = 0 -> unneg (wrap Neg n e) = wrap Neg (n mod 2) e.
Proof.
  apply unpack_loop_size_wrap; auto using neg_unpack_none0, neg_unpack_none1.
Qed.

Lemma uninv_wrap (n : nat) (e : E) :
  root_invs e = 0 -> uninv (wrap Inv n e) = wrap Inv (n mod 2) e.
Proof.
  apply unpack_loop_size_wrap; auto using inv_unpack_none0, inv_unpack_none1.
Qed.

Lemma unneg_done (e : E) : unpack_neg_neg (unneg e) = None.
Proof. apply unpack_loop_done; [exact neg_unpack_size | lia]. Qed.

Lemma uninv_done (e : E) : unpack_inv_inv (uninv e) = None.
Proof. apply unpack_loop_done; [exact inv_unpack_size | lia]. Qed.

(** The tree below the negations (resp. reciprocals) at the root. *)
Fixpoint strip_negs (e : E) : E :=
  match e with Neg e' => strip_negs e' | _ => e end.
Fixpoint strip_invs (e : E) : E :=
  match e with Inv e' => strip_invs e' | _ => e end.

Lemma strip_negs_spec (e : E) :
  wrap Neg (root_negs e) (strip_negs e) = e /\ root_negs (strip_negs e) = 0.
Proof.
  induction e; simpl; try (split; reflexivity).
  destruct IHe as [H1 H2]. rewrite H1. split; [reflexivity | exact H2].
Qed.

Lemma strip_invs_spec (e : E) :
  wrap Inv (root_invs e) (strip_invs e) = e /\ root_invs (strip_invs e) = 0.
Proof.
  induction e; simpl; try (split; reflexivity).
  destruct IHe as [H1 H2]. rewrite H1. split; [reflexivity | exact H2].
Qed.

Lemma root_negs_wrap (n : nat) (e : E) : root_negs (wrap Neg n e) = n + root_negs e.
Proof. induction n as [|n IH]; simpl; lia. Qed.

Lemma root_invs_wrap (n : nat) (e : E) : root_invs (wrap Inv n e) = n + root_invs e.
Proof. induction n as [|n IH]; simpl; lia. Qed.

(** C3 (as stated: an odd [k] would leave one negation) fails for [k = 1]:
    [unneg(-(-(X)))] is [X], with no negation at the root. *)
Lemma unneg_two_negs_counterexample :
  root_negs (unneg (wrap Neg (2 * 1) (Var Var.X))) <> 1.
Proof. vm_compute. discriminate. Qed.

(** C3 (amended): for every tree [e] and every [k], [unneg] applied to [e]
    wrapped in [2k] negations returns [e] with all pairs of negations at its
    root removed: the number of negations left at the root is that of [e]
    modulo 2, whatever the parity of [k] (none when the root of [e] is not
    a negation); the same holds for [uninv] and [2k] reciprocals. *)
Theorem unneg_uninv_even_wrappers (e : E) (k : nat) :
  unneg (wrap Neg (2 * k) e) = wrap Neg (root_negs e mod 2) (strip_negs e)
  /\ root_negs (unneg (wrap Neg (2 * k) e)) = root_negs e mod 2
  /\ uninv (wrap Inv (2 * k) e) = wrap Inv (root_invs e mod 2) (strip_invs e)
  /\ root_invs (uninv (wrap Inv (2 * k) e)) = root_invs e mod 2.
Proof.
  destruct (strip_negs_spec e) as [Hn Hn0].
  destruct (strip_invs_spec e) as [Hi Hi0].
  assert (Hneg : unneg (wrap Neg (2 * k) e) =
                 wrap Neg (root_negs e mod 2) (strip_negs e)).
  { rewrite <- Hn at 1. rewrite wrap_wrap, unneg_wrap by exact Hn0.
    f_equal. replace (2 * k + root_negs e) with (root_negs e + k * 2) by lia.
    apply Nat.Div0.mod_add. }
  assert (Hinv : uninv (wrap Inv (2 * k) e) =
                 wrap Inv (root_invs e mod 2) (strip_invs e)).
  { rewrite <- Hi at 1. rewrite wrap_wrap, uninv_wrap by exact Hi0.
    f_equal. replace (2 * k + root_invs e) with (root_invs e + k * 2) by lia.
    apply Nat.Div0.mod_add. }
  split; [exact Hneg | split; [| split; [exact Hinv |]]].
  - rewrite Hneg, root_negs_wrap, Hn0. lia.
  - rewrite Hinv, root_invs_wrap, Hi0. lia.
Qed.

(** C6: the sum rule, the product rule and the constant rule of [diff]. *)
Theorem diff_sum_product_constant (f g : E) (v : Var.Var) :
  diff (Add f g) v = Add (diff f v) (diff g v)
  /\ diff (Mul f g) v = Add (Mul (diff f v) g) (Mul f (diff g v))
  /\ (forall n, diff (Const_ (Numeric n)) v = Const_ (Numeric 0))
  /\ (forall s, diff (Const_ (Named s)) v = Const_ (Numeric 0)).
Proof. repeat split. Qed.

(** C7: for a tree [e] whose root is not a negation, [unneg] applied to [e]
    under [n] negations leaves exactly [n mod 2] of them around [e]; for a
    tree whose root is not a reciprocal, [uninv] does the same with [n]
    reciprocals. *)
Theorem unneg_uninv_leftover (n : nat) (e : E) :
  (root_negs e = 0 -> unneg (wrap Neg n e) = wrap Neg (n mod 2) e)
  /\ (root_invs e = 0 -> uninv (wrap Inv n e) = wrap Inv (n mod 2) e).
Proof. split; [apply unneg_wrap | apply uninv_wrap]. Qed.

Lemma unneg_uninv_leftover_witness :
  unneg (wrap Neg 3 (Var Var.X)) = Neg (Var Var.X)
  /\ uninv (wrap Inv 4 (Var Var.Y)) = Var Var.Y.
Proof.
  split.
  - exact (proj1 (unneg_uninv_leftover 3 (Var Var.X)) eq_refl).
  - exact (proj2 (unneg_uninv_leftover 4 (Var Var.Y)) eq_refl).
Defined.

Lemma substitute_absent (t : E) (name : string) (value : E) :
  has_named name t = false -> substitute t name value = t.
Proof.
  induction t as [e1 IH1 e2 IH2 | e IH | e1 IH1 e2 IH2 | e IH | [n|n] | n e IH | v];
    simpl; intros H;
    repeat match goal with
           | H : (_ || _)%bool = false |- _ => apply orb_false_iff in H as [? ?]
           end;
    try (rewrite IH1, IH2 by assumption); try (rewrite IH by assumption);
    try reflexivity.
  rewrite H. reflexivity.
Qed.

(** C8: on a tree without a named constant called [name], [substitute]
    gives a tree that is printed exactly as the input. *)
Theorem substitute_absent_renders_same (t : E) (name : string) (value : E) :
  has_named name t = false ->
  render (substitute t name value) = render t.
Proof. intros H. rewrite substitute_absent by exact H. reflexivity. Qed.

Lemma substitute_absent_renders_same_witness :
  render (substitute (Add (Const_ (Named "a")) (Mul (Var Var.X) (Const_ (Numeric (-3)))))
            "b" (Var Var.Z)) = "(a + (X * -3))".
Proof.
  rewrite (substitute_absent_renders_same
             (Add (Const_ (Named "a")) (Mul (Var Var.X) (Const_ (Numeric (-3)))))
             "b" (Var Var.Z) eq_refl).
  reflexivity.
Defined.

End Lab3Facts.

(* ===================================================================== *)
(** ** Further properties of the lab 5 interpreter *)

Module Lab5More.
Import Lab5.

(** [impl<T: Stmt> Seq<T, Nothing> { fn shorten_1(self) -> T }], and its two
    siblings.  The methods only exist for the types named in their [impl]
    blocks; [None] marks a receiver for which the call does not compile. *)
Definition shorten_1 (self : Stmt) : option Stmt :=
  match self with
  | Seq first Nothing => Some first
  | _ => None
  end.

Definition shorten_2 (self : Stmt) : option Stmt :=
  match self with
  | Seq Nothing second => Some second
  | _ => None
  end.

(** [impl Seq<Nothing, Nothing> { fn collapse(self) -> Nothing }] *)
Definition collapse (self : Stmt) : option Stmt :=
  match self with
  | Seq Nothing Nothing => Some Nothing
  | _ => None
  end.

(** The cells an expression may write: the destinations of [SaveIn] and
    [Volatile] and the counters of [CounterExpr]. *)
Fixpoint writes (e : Expr) : list cell :=
  match e with
  | Lit _ | Constant _ | ReadFrom _ => []
  | When c t f => writes c ++ writes t ++ writes f
  | SaveIn d inner => d :: writes inner
  | Volatile d _ inner => d :: writes inner
  | CounterExpr calls _ => [calls]
  end.



(** Whether [e] looks up the environment entry [k] (an inner [Volatile] on
    [k] hides the outer entry). *)
Fixpoint looks_up (k : string) (e : Expr) : bool :=
  match e with
  | Constant n => String.eqb n k
  | When c t f => looks_up k c || looks_up k t || looks_up k f
  | SaveIn _ inner => looks_up k inner
  | Volatile _ k' inner => if String.eqb k' k then false else looks_up k inner
  | Lit _ | ReadFrom _ | CounterExpr _ _ => false
  end.

Lemma bind_done {A B} (m : outcome A) (k : A -> outcome B) (b : B) :
  bind m k = Done b -> exists a, m = Done a /\ k a = Done b.
Proof. destruct m as [a|msg]; simpl; [eauto | discriminate]. Qed.


Lemma bind_assoc {A B C} (m : outcome A) (k1 : A -> outcome B) (k2 : B -> outcome C) :
  bind (bind m k1) k2 = bind m (fun a => bind (k1 a) k2).
Proof. destruct m; reflexivity. Qed.

Ltac split_bind H :=
  apply bind_done in H as [[?v ?st] [?Hm ?Hk]]; simpl in Hk.

Lemma exec_expr_effects (e : Expr) : forall ctx st v st',
  exec_expr e ctx st = Done (v, st') ->
  log st' = log st /\ out st' = out st /\
  (forall c, ~ In c (writes e) -> mem st' !! c = mem st !! c).
Proof.
  induction e as [w | c IHc t IHt f IHf | n | r | d inner IH | d k inner IH | calls w];
    intros ctx st v st' H; simpl in H.
  - inversion H; subst. auto.
  - split_bind H. destruct (Z.eqb _ 0).
    + destruct (IHc _ _ _ _ Hm) as [L1 [O1 M1]].
      destruct (IHf _ _ _ _ Hk) as [L2 [O2 M2]].
      split; [congruence | split; [congruence |]].
      intros x Hx. simpl in Hx. rewrite !in_app_iff in Hx.
      rewrite M2, M1; [reflexivity | tauto | tauto].
    + destruct (IHc _ _ _ _ Hm) as [L1 [O1 M1]].
      destruct (IHt _ _ _ _ Hk) as [L2 [O2 M2]].
      split; [congruence | split; [congruence |]].
      intros x Hx. simpl in Hx. rewrite !in_app_iff in Hx.
      rewrite M2, M1; [reflexivity | tauto | tauto].
  - destruct (_ !! n); inversion H; subst; auto.
  - inversion H; subst; auto.
  - split_bind H. inversion Hk; subst. destruct (IH _ _ _ _ Hm) as [L1 [O1 M1]].
    simpl. split; [exact L1 | split; [exact O1 |]].
    intros x Hx. simpl in Hx. rewrite lookup_insert_ne by tauto. apply M1. tauto.
  - split_bind H. inversion Hk; subst. destruct (IH _ _ _ _ Hm) as [L1 [O1 M1]].
    simpl. split; [exact L1 | split; [exact O1 |]].
    intros x Hx. simpl in Hx. rewrite lookup_insert_ne by tauto. apply M1. tauto.
  - inversion H; subst. simpl. split; [reflexivity | split; [reflexivity |]].
    intros x Hx. simpl in Hx. rewrite lookup_insert_ne by tauto. reflexivity.
Qed.

Lemma exec_expr_insert_unused (e : Expr) (k : string) :
  looks_up k e = false ->
  forall x ctx st, exec_expr e (<[k := x]> ctx) st = exec_expr e ctx st.
Proof.
  induction e as [w | c IHc t IHt f IHf | n | r | d inner IH | d k' inner IH | calls w];
    simpl; intros Hk x ctx st; try reflexivity.
  - apply orb_false_iff in Hk as [Hk Hf]. apply orb_false_iff in Hk as [Hc Ht].
    rewrite IHc by exact Hc. apply Lab5Facts.bind_ext. intros [cv st1].
    destruct (Z.eqb cv 0); [apply IHf | apply IHt]; assumption.
  - apply String.eqb_neq in Hk. rewrite lookup_insert_ne by congruence. reflexivity.
  - rewrite IH by exact Hk. reflexivity.
  - destruct (String.eqb_spec k' k) as [->|Hne].
    + rewrite insert_insert_eq. reflexivity.
    + rewrite insert_insert_ne by exact Hne. rewrite IH by exact Hk. reflexivity.
Qed.

(** Evaluating an expression changes no cell outside [writes e]: the
    caller's other variables keep their values. *)
Theorem exec_expr_writes_only_its_cells (e : Expr) (ctx : Context) (st st' : State)
    (v : Z) (c : cell) :
  exec_expr e ctx st = Done (v, st') -> ~ In c (writes e) ->
  read_cell st' c = read_cell st c.
Proof.
  intros H Hc. destruct (exec_expr_effects e ctx st v st' H) as [_ [_ M]].
  unfold read_cell. rewrite (M c Hc). reflexivity.
Qed.

Lemma exec_expr_writes_only_its_cells_witness :
  read_cell (write_cell (write_cell Lab5Facts.cells0 1 5) 0 7) 1 = read_cell (write_cell Lab5Facts.cells0 1 5) 1.
Proof.
  apply (exec_expr_writes_only_its_cells (SaveIn 0 (Lit 7)) ∅ (write_cell Lab5Facts.cells0 1 5)
           (write_cell (write_cell Lab5Facts.cells0 1 5) 0 7) 7 1).
  - reflexivity.
  - simpl. lia.
Defined.

(** Expressions never print and never touch the [Recorder] log: only
    statements do. *)
Theorem exec_expr_no_output (e : Expr) (ctx : Context) (st st' : State) (v : Z) :
  exec_expr e ctx st = Done (v, st') -> log st' = log st /\ out st' = out st.
Proof.
  intros H. destruct (exec_expr_effects e ctx st v st' H) as [L [O _]]. auto.
Qed.

Lemma exec_expr_no_output_witness :
  log (write_cell Lab5Facts.cells0 0 1) = log Lab5Facts.cells0 /\ out (write_cell Lab5Facts.cells0 0 1) = out Lab5Facts.cells0.
Proof.
  apply (exec_expr_no_output (Volatile 0 "y" (When (Constant "y") (Lit 0) (Lit 1)))
           Lab5Facts.main_context Lab5Facts.cells0 (write_cell Lab5Facts.cells0 0 1) 1).
  reflexivity.
Defined.





(** A [Volatile] whose inner expression never looks up the overridden
    name behaves exactly like a [SaveIn] into the same cell. *)
Theorem volatile_unused_name_is_save_in (c : cell) (k : string) (e : Expr)
    (ctx : Context) (st : State) :
  looks_up k e = false ->
  exec_expr (Volatile c k e) ctx st = exec_expr (SaveIn c e) ctx st.
Proof.
  intros Hk. simpl. rewrite exec_expr_insert_unused by exact Hk. reflexivity.
Qed.

Lemma volatile_unused_name_is_save_in_witness :
  exec_expr (Volatile 0 "y" (When (Constant "x") (Lit 1) (Lit 2))) Lab5Facts.main_context Lab5Facts.cells0
  = exec_expr (SaveIn 0 (When (Constant "x") (Lit 1) (Lit 2))) Lab5Facts.main_context Lab5Facts.cells0.
Proof. apply volatile_unused_name_is_save_in. reflexivity. Defined.

(** [shorten_1], [shorten_2] and [collapse] preserve behaviour: wherever
    they can be called, the statement they return executes exactly as the
    sequence they were called on. *)
Theorem shortenings_preserve_behaviour :
  (forall self s', shorten_1 self = Some s' ->
     forall ctx st, exec_stmt s' ctx st = exec_stmt self ctx st)
  /\ (forall self s', shorten_2 self = Some s' ->
     forall ctx st, exec_stmt s' ctx st = exec_stmt self ctx st)
  /\ (forall self s', collapse self = Some s' ->
     forall ctx st, exec_stmt s' ctx st = exec_stmt self ctx st).
Proof.
  split; [|split]; intros self s' H ctx st;
    destruct self as [| | first second | |]; try discriminate.
  - destruct second; try discriminate. inversion H; subst. simpl.
    destruct (exec_stmt s' ctx st); reflexivity.
  - destruct first; try discriminate. inversion H; subst. reflexivity.
  - destruct first, second; try discriminate. inversion H; subst. reflexivity.
Qed.

Lemma shortenings_preserve_behaviour_witness :
  exec_stmt (Print (Lit 1)) ∅ Lab5Facts.cells0 = exec_stmt (Seq (Print (Lit 1)) Nothing) ∅ Lab5Facts.cells0
  /\ exec_stmt (Print (Lit 2)) ∅ Lab5Facts.cells0 = exec_stmt (Seq Nothing (Print (Lit 2))) ∅ Lab5Facts.cells0
  /\ exec_stmt Nothing ∅ Lab5Facts.cells0 = exec_stmt (Seq Nothing Nothing) ∅ Lab5Facts.cells0.
Proof.
  destruct shortenings_preserve_behaviour as [H1 [H2 H3]].
  split; [|split].
  - exact (H1 (Seq (Print (Lit 1)) Nothing) _ eq_refl ∅ Lab5Facts.cells0).
  - exact (H2 (Seq Nothing (Print (Lit 2))) _ eq_refl ∅ Lab5Facts.cells0).
  - exact (H3 (Seq Nothing Nothing) _ eq_refl ∅ Lab5Facts.cells0).
Defined.

(** Sequencing is associative: how [seq] calls are nested does not
    change what runs. *)
Theorem seq_assoc (a b c : Stmt) (ctx : Context) (st : State) :
  exec_stmt (Seq (Seq a b) c) ctx st = exec_stmt (Seq a (Seq b c)) ctx st.
Proof. simpl. destruct (exec_stmt a ctx st); reflexivity. Qed.

(** [Repeat<M + N>] runs as [Repeat<M>] followed by [Repeat<N>]. *)
Theorem repeat_add (m n : nat) (s : Stmt) (ctx : Context) (st : State) :
  exec_stmt (Repeat (m + n) s) ctx st =
  exec_stmt (Seq (Repeat m s) (Repeat n s)) ctx st.
Proof.
  simpl. revert st. induction m as [|m IH]; intros st; simpl; [reflexivity|].
  rewrite bind_assoc. apply Lab5Facts.bind_ext. exact IH.
Qed.

(** [SaveIn(d, e)] returns the value of [e] and leaves it in the cell [d]:
    a [ReadFrom(d)] evaluated next returns that same value. *)
Theorem save_in_then_read_from (d : cell) (e : Expr) (ctx : Context)
    (st st' : State) (v : Z) :
  exec_expr (SaveIn d e) ctx st = Done (v, st') ->
  (exists st1, exec_expr e ctx st = Done (v, st1) /\ st' = write_cell st1 d v)
  /\ exec_expr (ReadFrom d) ctx st' = Done (v, st').
Proof.
  intros H. simpl in H. split_bind H. inversion Hk; subst.
  split; [eauto|]. simpl. unfold read_cell, write_cell. simpl.
  rewrite lookup_insert_eq. reflexivity.
Qed.

Lemma save_in_then_read_from_witness :
  exec_expr (ReadFrom 0) ∅ (write_cell Lab5Facts.cells0 0 123) =
  Done (123, write_cell Lab5Facts.cells0 0 123).
Proof.
  exact (proj2 (save_in_then_read_from 0 (Lit 123) ∅ Lab5Facts.cells0
                  (write_cell Lab5Facts.cells0 0 123) 123 eq_refl)).
Defined.

End Lab5More.

(* ===================================================================== *)
(** ** Further properties of the lab 3 expression tree *)

Module Lab3More.
Import Lab3.

(** [E::arg_count] (a [u32] in the source, at most 2). *)
Definition arg_count (self : E) : nat :=
  match self with
  | Add _ _ | Mul _ _ => 2
  | Const_ _ | Var _ => 0
  | _ => 1
  end.

Ltac split_orb :=
  repeat match goal with
         | H : (_ || _)%bool = false |- _ => apply orb_false_iff in H as [? ?]
         end.

(** Substituting twice for the same name is substituting once with the
    second substitution applied to the inserted value. *)
Theorem substitute_substitute (t : E) (name : string) (v w : E) :
  substitute (substitute t name v) name w = substitute t name (substitute v name w).
Proof.
  induction t as [e1 IH1 e2 IH2 | e IH | e1 IH1 e2 IH2 | e IH | [n|n] | n e IH | x];
    simpl; try congruence.
  destruct (String.eqb n name) eqn:Hn; [reflexivity|]. simpl. rewrite Hn. reflexivity.
Qed.

(** [substitute] replaces every named constant [name]: when the inserted
    value does not mention [name], the result does not either. *)
Theorem substitute_removes_name (t : E) (name : string) (value : E) :
  has_named name value = false -> has_named name (substitute t name value) = false.
Proof.
  intros Hv.
  induction t as [e1 IH1 e2 IH2 | e IH | e1 IH1 e2 IH2 | e IH | [n|n] | n e IH | x];
    simpl; try rewrite IH1, IH2; try rewrite IH; try reflexivity.
  destruct (String.eqb n name) eqn:Hn; [exact Hv|]. simpl. exact Hn.
Qed.

Lemma substitute_removes_name_witness :
  has_named "a" (substitute (Mul (Const_ (Named "a")) (Func "f" (Const_ (Named "a"))))
                  "a" (Const_ (Numeric 3))) = false.
Proof. apply substitute_removes_name. reflexivity. Defined.

(** Substituting the named constant [name] for itself changes nothing. *)
Theorem substitute_same_name_id (t : E) (name : string) :
  substitute t name (Const_ (Named name)) = t.
Proof.
  induction t as [e1 IH1 e2 IH2 | e IH | e1 IH1 e2 IH2 | e IH | [n|n] | n e IH | x];
    simpl; try congruence.
  destruct (String.eqb_spec n name) as [->|]; reflexivity.
Qed.

(** Differentiating, then substituting a constant leaf for a named
    constant (as [main] does), gives the same tree as substituting first
    and then differentiating. *)
Theorem diff_substitute_const (t : E) (by_ : Var.Var) (name : string) (c : Const) :
  substitute (diff t by_) name (Const_ c) = diff (substitute t name (Const_ c)) by_.
Proof.
  induction t as [e1 IH1 e2 IH2 | e IH | e1 IH1 e2 IH2 | e IH | [n|n] | n e IH | x];
    simpl; try congruence.
  - destruct (String.eqb n name); reflexivity.
  - destruct (Var.eqb x by_); reflexivity.
Qed.

(** [diff] never introduces a named constant: a name absent from the input
    is absent from its derivative. *)
Theorem diff_no_new_names (t : E) (by_ : Var.Var) (name : string) :
  has_named name t = false -> has_named name (diff t by_) = false.
Proof.
  induction t as [e1 IH1 e2 IH2 | e IH | e1 IH1 e2 IH2 | e IH | [n|n] | n e IH | x];
    simpl; intros H; split_orb;
    repeat match goal with
           | IH : ?P = false -> _, H : ?P = false |- _ => specialize (IH H)
           end;
    repeat match goal with H : _ = false |- _ => rewrite H; clear H end;
    try reflexivity.
  destruct (Var.eqb x by_); reflexivity.
Qed.

Lemma diff_no_new_names_witness :
  has_named "b" (diff (Mul (Const_ (Named "a")) (Func "sin" (Var Var.X))) Var.X) = false.
Proof. apply diff_no_new_names. reflexivity. Defined.

(** [arg_count] of a derivative: a leaf differentiates to the numeric
    constant [0] or [1]; any other node differentiates to a node with at
    least as many arguments. *)
Theorem arg_count_diff (t : E) (by_ : Var.Var) :
  (arg_count t = 0%nat ->
     diff t by_ = Const_ (Numeric 0) \/ diff t by_ = Const_ (Numeric 1))
  /\ (arg_count t <> 0%nat -> (arg_count t <= arg_count (diff t by_))%nat).
Proof.
  destruct t; simpl; split; intros H; try discriminate; try lia; auto.
  destruct (Var.eqb v by_); auto.
Qed.

Lemma arg_count_diff_witness :
  (diff (Var Var.X) Var.X = Const_ (Numeric 0) \/ diff (Var Var.X) Var.X = Const_ (Numeric 1))
  /\ (arg_count (Inv (Var Var.X)) <= arg_count (diff (Inv (Var Var.X)) Var.X))%nat.
Proof.
  split.
  - apply (proj1 (arg_count_diff (Var Var.X) Var.X)). reflexivity.
  - apply (proj2 (arg_count_diff (Inv (Var Var.X)) Var.X)). discriminate.
Defined.

(** The simplification passes are idempotent: a second [unneg] (resp.
    [uninv]) changes nothing. *)
Theorem unneg_uninv_idempotent (e : E) :
  unneg (unneg e) = unneg e /\ uninv (uninv e) = uninv e.
Proof.
  split.
  - unfold unneg at 1. pose proof (Lab3Facts.size_pos (unneg e)).
    destruct (size (unneg e)) as [|n]; [lia|]. simpl.
    rewrite Lab3Facts.unneg_done. reflexivity.
  - unfold uninv at 1. pose proof (Lab3Facts.size_pos (uninv e)).
    destruct (size (uninv e)) as [|n]; [lia|]. simpl.
    rewrite Lab3Facts.uninv_done. reflexivity.
Qed.

End Lab3More.
